(** * Resume reviewer: analysis core of [app.py]

    A shallow embedding of the four analysis operations of [app.py]
    ([get_resume_score], [extract_text_from_pdf], [extract_data_from_text],
    [get_detailed_feedback]) and of the module-level branch that drives them.

    Modelling conventions.
    - Text is a [string] of 8-bit characters.  [str.lower], [str.strip],
      [len] and the regular-expression classes [\d], [\s], [\w] are given
      their meaning on ASCII, where they are what Python computes; a
      statement that holds only where the two agree is made for ASCII text
      ([ascii_text]).
    - Python dictionaries are [gmap string _]; [d[k] = v] is [<[k:=v]> d].
    - The [re] module is modelled by a small backtracking matcher that lists
      the successes of a pattern in the order in which the backtracking
      engine tries them; [search] takes the first success at the leftmost
      start position.
    - The score arithmetic of [get_resume_score] is written over rationals
      ([Q]) in place of binary floats; nothing is proved here about the value
      of a score, only about when scoring succeeds. *)

From Stdlib Require Import String Ascii List Arith Bool Lia QArith.
From stdpp Require Import gmap strings.
Import ListNotations.

Local Open Scope string_scope.
Local Open Scope nat_scope.

(** ** Characters *)

Definition in_range (lo hi : nat) (c : ascii) : bool :=
  (lo <=? nat_of_ascii c) && (nat_of_ascii c <=? hi).

(** [[A-Z]], [[a-z]], [\d] *)
Definition is_upper (c : ascii) : bool := in_range 65 90 c.
Definition is_lower (c : ascii) : bool := in_range 97 122 c.
Definition is_digit (c : ascii) : bool := in_range 48 57 c.

(** [\s] and the characters removed by [str.strip()]: tab, newline, vertical
    tab, form feed, carriage return, the four separators 0x1c-0x1f, space. *)
Definition is_space (c : ascii) : bool :=
  in_range 9 13 c || in_range 28 31 c || (nat_of_ascii c =? 32).

(** [\w] *)
Definition is_word (c : ascii) : bool :=
  is_upper c || is_lower c || is_digit c || (nat_of_ascii c =? 95).

(** [[\w\.-]] *)
Definition is_email_char (c : ascii) : bool :=
  is_word c || (nat_of_ascii c =? 46) || (nat_of_ascii c =? 45).

Definition lower_char (c : ascii) : ascii :=
  if is_upper c then ascii_of_nat (nat_of_ascii c + 32) else c.

(** ** Strings *)

(** [s.lower()] *)
Fixpoint lower (s : string) : string :=
  match s with
  | EmptyString => EmptyString
  | String c t => String (lower_char c) (lower t)
  end.

(** [needle in hay] *)
Fixpoint contains (needle hay : string) : bool :=
  String.prefix needle hay ||
  match hay with
  | EmptyString => false
  | String _ t => contains needle t
  end.

Fixpoint all_chars (p : ascii -> bool) (s : string) : bool :=
  match s with
  | EmptyString => true
  | String c t => p c && all_chars p t
  end.

Fixpoint lstrip (s : string) : string :=
  match s with
  | EmptyString => EmptyString
  | String c t => if is_space c then lstrip t else s
  end.

Fixpoint rstrip (s : string) : string :=
  match s with
  | EmptyString => EmptyString
  | String c t => if all_chars is_space s then EmptyString else String c (rstrip t)
  end.

(** [s.strip()] *)
Definition strip (s : string) : string := rstrip (lstrip s).

(** [text.split('\n')], with the line being read in [cur] *)
Fixpoint split_go (cur : string) (s : string) : list string :=
  match s with
  | EmptyString => [String.rev cur]
  | String c t =>
      if (nat_of_ascii c =? 10)
      then String.rev cur :: split_go EmptyString t
      else split_go (String c cur) t
  end.

Definition split_nl (s : string) : list string := split_go EmptyString s.

(** ** Regular expressions *)

Inductive regex : Type :=
| Eps
| Bol                        (* ^ *)
| Cls (p : ascii -> bool)    (* a character class *)
| Seq (r1 r2 : regex)
| Opt (r : regex)            (* r?  greedy *)
| Plus (r : regex)           (* r+  greedy *)
| Grp (r : regex).           (* ( r ) capturing *)

Fixpoint Lit (s : string) : regex :=
  match s with
  | EmptyString => Eps
  | String c t => Seq (Cls (Ascii.eqb c)) (Lit t)
  end.

(** A position in the subject: its index, the text from there on, and the
    groups captured so far. *)
Record cursor : Type := Cursor {
  cur_pos : nat;
  cur_rest : string;
  cur_caps : list string
}.

(** Greedy repetition: every continuation after one more round of [step]
    comes before stopping here.  A round has to consume input. *)
Fixpoint star_iter (step : cursor -> list cursor) (fuel : nat) (c : cursor)
  : list cursor :=
  match fuel with
  | 0 => [c]
  | S n =>
      flat_map (fun c' =>
                  if String.length (cur_rest c') <? String.length (cur_rest c)
                  then star_iter step n c' else [])
               (step c) ++ [c]
  end.

(** All cursors reachable by matching [r] from [c], in the order in which a
    backtracking engine finds them. *)
Fixpoint matches (r : regex) (c : cursor) : list cursor :=
  match r with
  | Eps => [c]
  | Bol => if cur_pos c =? 0 then [c] else []
  | Cls p =>
      match cur_rest c with
      | String a t =>
          if p a then [Cursor (S (cur_pos c)) t (cur_caps c)] else []
      | EmptyString => []
      end
  | Seq r1 r2 => flat_map (matches r2) (matches r1 c)
  | Opt r1 => matches r1 c ++ [c]
  | Plus r1 =>
      flat_map (fun c' => star_iter (matches r1) (String.length (cur_rest c')) c')
               (matches r1 c)
  | Grp r1 =>
      map (fun c' =>
             Cursor (cur_pos c') (cur_rest c')
                    (cur_caps c' ++
                     [substring 0 (cur_pos c' - cur_pos c) (cur_rest c)]))
          (matches r1 c)
  end.

(** A match object: [m.group()] and [m.group(1)], [m.group(2)], ... *)
Record re_match : Type := ReMatch {
  m_start : nat;
  m_end : nat;
  m_group : string;
  m_groups : list string
}.

Definition match_at (r : regex) (i : nat) (s : string) : option re_match :=
  match matches r (Cursor i s []) with
  | c :: _ =>
      Some (ReMatch i (cur_pos c) (substring 0 (cur_pos c - i) s) (cur_caps c))
  | [] => None
  end.

(** [pattern.search(text)], scanning start positions from [i] on. *)
Fixpoint search_from (r : regex) (i : nat) (s : string) : option re_match :=
  match match_at r i s with
  | Some m => Some m
  | None =>
      match s with
      | String _ t => search_from r (S i) t
      | EmptyString => None
      end
  end.

Definition search (r : regex) (text : string) : option re_match :=
  search_from r 0 text.

(** [re.findall(pattern, text)] for a pattern without groups.  After a
    match the scan resumes where the match ended: [skip] counts the
    characters still covered by the last match. *)
Fixpoint findall_from (r : regex) (i : nat) (s : string) (skip : nat)
  : list string :=
  match skip with
  | S k =>
      match s with
      | String _ t => findall_from r (S i) t k
      | EmptyString => []
      end
  | 0 =>
      match match_at r i s with
      | Some m =>
          m_group m ::
          match s with
          | String _ t => findall_from r (S i) t (m_end m - i - 1)
          | EmptyString => []
          end
      | None =>
          match s with
          | String _ t => findall_from r (S i) t 0
          | EmptyString => []
          end
      end
  end.

Definition findall (r : regex) (text : string) : list string :=
  findall_from r 0 text 0.

(** ** The patterns of [extract_data_from_text] *)

(** [^[A-Z][a-z]+(?: [A-Z][a-z]+)+] *)
Definition name_pattern : regex :=
  Seq Bol
   (Seq (Cls is_upper)
     (Seq (Plus (Cls is_lower))
          (Plus (Seq (Cls (Ascii.eqb " "))
                     (Seq (Cls is_upper) (Plus (Cls is_lower))))))).

(** [[\w\.-]+@[\w\.-]+] *)
Definition email_pattern : regex :=
  Seq (Plus (Cls is_email_char))
      (Seq (Cls (Ascii.eqb "@")) (Plus (Cls is_email_char))).

(** [(\d+)\s+year[s]?\s+experience] *)
Definition experience_pattern : regex :=
  Seq (Grp (Plus (Cls is_digit)))
   (Seq (Plus (Cls is_space))
     (Seq (Lit "year")
       (Seq (Opt (Cls (Ascii.eqb "s")))
         (Seq (Plus (Cls is_space)) (Lit "experience"))))).

(** [gpa] *)
Definition gpa_pattern : regex := Lit "gpa".

(** ** [extract_text_from_pdf]

    The reader is given by the text that [extract_text()] yields for each of
    its pages. *)
Definition extract_text_from_pdf (pages : list string) : string :=
  fold_left (fun text page_num => text ++ nth page_num pages "")
            (seq 0 (length pages)) "".

(** ** [get_resume_score] *)

Definition candidate_labels : list string :=
  [ "Strong technical skills";
    "Experience with project management";
    "Clear and concise summary";
    "Measurable achievements included";
    "Well-structured and easy to read";
    "Relevant keywords for the job";
    "Excellent communication skills" ].

(** The dictionary returned by the zero-shot pipeline. *)
Record classification : Type := Classification {
  res_sequence : string;
  res_labels : list string;
  res_scores : list Q
}.

Definition nl : string := String (ascii_of_nat 10) EmptyString.

(** [sum(xs)] *)
Definition sum (xs : list Q) : Q := fold_left Qplus xs 0%Q.

(** The f-string sent to the classifier. *)
Definition prompt_of (resume_text job_description : string) : string :=
  "Resume:" ++ nl ++ resume_text ++ nl ++ nl ++
  "Job Description:" ++ nl ++ job_description.

(** [None] stands for the [ZeroDivisionError] of an empty score list. *)
Definition get_resume_score
    (classifier : string -> list string -> classification)
    (resume_text job_description : string) : option (Q * classification) :=
  let prompt := prompt_of resume_text job_description in
  let result := classifier prompt candidate_labels in
  let total_score := sum (res_scores result) in
  match length (res_scores result) with
  | 0 => None
  | S _ =>
      let average_score :=
        (total_score / inject_Z (Z.of_nat (length (res_scores result)))
         * 100)%Q in
      Some (average_score, result)
  end.

(** ** [extract_data_from_text] *)

Definition not_found : string := "Not found".

Definition line_qualifies (line : string) : bool :=
  (negb (contains "experience" (lower line)) &&
   negb (contains "education" (lower line)) &&
   negb (contains "skills" (lower line)) &&
   negb (contains "contact" (lower line))) &&
  (String.length line <? 50).

(** The [for line in lines] loop; leaving the recursion is the [break]. *)
Fixpoint position_loop (lines : list string) (data : gmap string string)
  : gmap string string :=
  match lines with
  | [] => data
  | line :: lines' =>
      if line_qualifies line then
        if bool_decide (data !! "position" = Some not_found)
        then <["position" := strip line]> data
        else position_loop lines' data
      else position_loop lines' data
  end.

Definition extract_data_from_text (text : string) : gmap string string :=
  let data : gmap string string :=
    <["skills" := not_found]> (<["experience" := not_found]>
    (<["email" := not_found]> (<["position" := not_found]>
    (<["name" := not_found]> ∅)))) in
  let data :=
    match search name_pattern text with
    | Some name_match => <["name" := m_group name_match]> data
    | None => data
    end in
  let data :=
    match search email_pattern text with
    | Some email_match => <["email" := m_group email_match]> data
    | None => data
    end in
  let data :=
    match search experience_pattern (lower text) with
    | Some experience_match =>
        <["experience" := nth 0 (m_groups experience_match) "" ++ " years"]> data
    | None => data
    end in
  let lines := split_nl text in
  let data := position_loop lines data in
  if contains "Skills" text
  then <["skills" := "Explicit Skills section found."]> data
  else <["skills" :=
           "No explicit skills section is present; consider adding one."]> data.

(** ** [get_detailed_feedback] *)

(** [feedback[key].append(finding)] *)
Definition append_to (key finding : string) (feedback : gmap string (list string))
  : gmap string (list string) :=
  alter (fun findings => (findings ++ [finding])%list) key feedback.

Definition grammar_finding : string :=
  "The phrase 'years experience' should be 'years of experience' for correct grammar.".
Definition tone_finding : string :=
  "The phrase 'Determined work placement' could be stronger as 'Determined and assigned work placements' using stronger action verbs.".
Definition gpa_finding : string :=
  "The detailed GPA breakdown may be excessive unless applying for academic roles; consider summarizing.".
Definition mixed_finding : string :=
  "The resume mixes different types of experience; consider tailoring or separating sections more clearly.".
Definition skills_finding : string :=
  "No explicit skills section is present; important skills should be clearly listed to improve ATS parsing.".

Definition get_detailed_feedback (text : string) : gmap string (list string) :=
  let feedback : gmap string (list string) :=
    <["skills_relevance" := []]> (<["experience_relevance" := []]>
    (<["unnecessary_information" := []]> (<["professional_tone" := []]>
    (<["grammatical_errors" := []]> ∅)))) in
  let feedback :=
    if contains "years experience" (lower text) &&
       negb (contains "years of experience" (lower text))
    then append_to "grammatical_errors" grammar_finding feedback
    else feedback in
  let feedback :=
    if contains "Determined work placement" text
    then append_to "professional_tone" tone_finding feedback
    else feedback in
  let feedback :=
    if contains "gpa" (lower text) &&
       (1 <? length (findall gpa_pattern (lower text)))
    then append_to "unnecessary_information" gpa_finding feedback
    else feedback in
  let feedback :=
    if (contains "childcare" (lower text) && contains "adult care" (lower text))
       || (contains "teacher" (lower text) && contains "caregiver" (lower text))
    then append_to "experience_relevance" mixed_finding feedback
    else feedback in
  if negb (contains "skills" (lower text))
  then append_to "skills_relevance" skills_finding feedback
  else feedback.

(** ** The module-level branch run on a press of "Analyze Resume"

    The branch is modelled by the sequence of calls it makes: the four core
    operations and the Streamlit calls that show something to the user.  The
    uploaded file is [None] or the page texts of the uploaded document. *)

Inductive ui_event : Type :=
| Spinner (msg : string)
| Sleep (seconds : nat)
| CallExtractText (pages : list string)
| CallScore (resume_text job_description : string)
| CallExtractData (resume_text : string)
| CallFeedback (resume_text : string)
| Success (msg : string)
| ShowScore (score : Z)
| ShowData (label value : string)
| ShowFeedback (title : string) (items : list string)
| Raised (exn : string)
| Error (msg : string).

(** [display_feedback_list] *)
Definition display_feedback_list (title : string) (items : list string)
  : list ui_event :=
  match items with
  | [] => []
  | _ :: _ => [ShowFeedback title items]
  end.

(** [int(score)] *)
Definition int_of_Q (q : Q) : Z := Z.quot (Qnum q) (Zpos (Qden q)).

Definition analysis
    (classifier : string -> list string -> classification)
    (pages : list string) (job_description : string) : list ui_event :=
  let resume_text := extract_text_from_pdf pages in
  [Spinner "Analyzing your resume..."; Sleep 3; CallExtractText pages;
   CallScore resume_text job_description] ++
  match get_resume_score classifier resume_text job_description with
  | None => [Raised "ZeroDivisionError"]
  | Some (score, _) =>
      let extracted_data := extract_data_from_text resume_text in
      let feedback := get_detailed_feedback resume_text in
      [CallExtractData resume_text; CallFeedback resume_text;
       Success "✅ Analysis Complete!"; ShowScore (int_of_Q score);
       ShowData "Name" (default "" (extracted_data !! "name"));
       ShowData "Position" (default "" (extracted_data !! "position"));
       ShowData "Email" (default "" (extracted_data !! "email"));
       ShowData "Experience" (default "" (extracted_data !! "experience"));
       ShowData "Skills" (default "" (extracted_data !! "skills"))] ++
      display_feedback_list "Grammatical errors"
        (default [] (feedback !! "grammatical_errors")) ++
      display_feedback_list "Professional tone"
        (default [] (feedback !! "professional_tone")) ++
      display_feedback_list "Unnecessary information"
        (default [] (feedback !! "unnecessary_information")) ++
      display_feedback_list "Experience relevance"
        (default [] (feedback !! "experience_relevance")) ++
      display_feedback_list "Skills relevance"
        (default [] (feedback !! "skills_relevance"))
  end.

(** Truth value of a [str]. *)
Definition truthy (s : string) : bool :=
  match s with EmptyString => false | String _ _ => true end.

Definition on_rerun
    (classifier : string -> list string -> classification)
    (analyze_button : bool) (uploaded_file : option (list string))
    (job_description : string) : list ui_event :=
  if analyze_button then
    if bool_decide (uploaded_file <> None) && truthy job_description then
      match uploaded_file with
      | Some pages => analysis classifier pages job_description
      | None => []
      end
    else if bool_decide (uploaded_file = None) then
      [Error "Please upload a resume file."]
    else if negb (truthy job_description) then
      [Error "Please provide a job description."]
    else []
  else [].

(** The core operations an event records. *)
Definition is_core_call (e : ui_event) : bool :=
  match e with
  | CallExtractText _ | CallScore _ _ | CallExtractData _ | CallFeedback _ => true
  | _ => false
  end.

Definition sample : string :=
  "John Smith" ++ nl ++ "john.smith@example.com" ++ nl ++
  "5 years experience" ++ nl ++ "Skills: Python, SQL".

(** ** Definitions used to state the properties *)



(** Case-insensitive containment, in words: some stretch of [text] reads
    [phrase] once lowered. *)
Definition icontains (phrase text : string) : Prop :=
  exists pre mid post, text = pre ++ mid ++ post /\ lower mid = phrase.

(** [w] is what lies between cursor [c] and cursor [c'], and no group was
    captured on the way. *)
Definition moves (c : cursor) (w : string) (c' : cursor) : Prop :=
  cur_rest c = w ++ cur_rest c' /\
  cur_pos c' = cur_pos c + String.length w /\
  cur_caps c' = cur_caps c.

(** Repetition of a relation on cursors, each round consuming input. *)
Inductive iter (R : cursor -> cursor -> Prop) : cursor -> cursor -> Prop :=
| iter_stop c : iter R c c
| iter_more c c1 c2 :
    R c c1 ->
    String.length (cur_rest c1) < String.length (cur_rest c) ->
    iter R c1 c2 ->
    iter R c c2.

(** The cursors a pattern relates, without regard to order. *)
Fixpoint sem (r : regex) (c c' : cursor) : Prop :=
  match r with
  | Eps => c' = c
  | Bol => cur_pos c = 0 /\ c' = c
  | Cls p =>
      exists a, p a = true /\ cur_rest c = String a (cur_rest c') /\
                cur_pos c' = S (cur_pos c) /\ cur_caps c' = cur_caps c
  | Seq r1 r2 => exists m, sem r1 c m /\ sem r2 m c'
  | Opt r1 => sem r1 c c' \/ c' = c
  | Plus r1 => exists m, sem r1 c m /\ iter (sem r1) m c'
  | Grp r1 =>
      exists m, sem r1 c m /\
        c' = Cursor (cur_pos m) (cur_rest m)
               (cur_caps m ++ [substring 0 (cur_pos m - cur_pos c) (cur_rest c)])
  end.

(** The words of a pattern.  [^] and capturing are positional and are left
    to [sem]. *)
Fixpoint lang (r : regex) (w : string) : Prop :=
  match r with
  | Eps | Bol => w = ""
  | Cls p => exists a, w = String a "" /\ p a = true
  | Seq r1 r2 => exists w1 w2, w = w1 ++ w2 /\ lang r1 w1 /\ lang r2 w2
  | Opt r1 => lang r1 w \/ w = ""
  | Plus r1 =>
      exists w1 ws, w = w1 ++ String.concat "" ws /\ lang r1 w1 /\ Forall (lang r1) ws
  | Grp r1 => lang r1 w
  end.

(** Whether a pattern can match without consuming input. *)
Fixpoint nullable (r : regex) : bool :=
  match r with
  | Eps | Bol | Opt _ => true
  | Cls _ => false
  | Seq r1 r2 => nullable r1 && nullable r2
  | Plus r1 | Grp r1 => nullable r1
  end.

(** Patterns without [^] and groups whose repetitions consume input. *)
Fixpoint plain (r : regex) : bool :=
  match r with
  | Eps | Cls _ => true
  | Bol | Grp _ => false
  | Seq r1 r2 => plain r1 && plain r2
  | Opt r1 => plain r1
  | Plus r1 => plain r1 && negb (nullable r1)
  end.

(** The value each key ends up with, read off [extract_data_from_text]. *)
Definition name_of (text : string) : string :=
  match search name_pattern text with
  | Some name_match => m_group name_match
  | None => not_found
  end.

Definition email_of (text : string) : string :=
  match search email_pattern text with
  | Some email_match => m_group email_match
  | None => not_found
  end.

Definition experience_of (text : string) : string :=
  match search experience_pattern (lower text) with
  | Some experience_match => nth 0 (m_groups experience_match) "" ++ " years"
  | None => not_found
  end.

Definition position_of (text : string) : string :=
  match find line_qualifies (split_nl text) with
  | Some line => strip line
  | None => not_found
  end.

Definition skills_of (text : string) : string :=
  if contains "Skills" text
  then "Explicit Skills section found."
  else "No explicit skills section is present; consider adding one.".

(** The conditions of the five rules of [get_detailed_feedback], and the
    content of a category whose rule append is guarded by [b]. *)
Definition finding_if (b : bool) (finding : string) : list string :=
  if b then [finding] else [].

Definition grammar_rule (text : string) : bool :=
  contains "years experience" (lower text) &&
  negb (contains "years of experience" (lower text)).

Definition tone_rule (text : string) : bool :=
  contains "Determined work placement" text.

Definition gpa_rule (text : string) : bool :=
  contains "gpa" (lower text) && (1 <? length (findall gpa_pattern (lower text))).

Definition mixed_rule (text : string) : bool :=
  (contains "childcare" (lower text) && contains "adult care" (lower text))
  || (contains "teacher" (lower text) && contains "caregiver" (lower text)).

Definition skills_rule (text : string) : bool :=
  negb (contains "skills" (lower text)).

(** The category keys of the report. *)
Definition feedback_keys : gset string :=
  {[ "grammatical_errors"; "professional_tone"; "unnecessary_information";
     "experience_relevance"; "skills_relevance" ]}.

(** The number of positions of [hay] at which [needle] starts. *)
Fixpoint occurrences (needle hay : string) : nat :=
  (if String.prefix needle hay then 1 else 0) +
  match hay with
  | EmptyString => 0
  | String _ t => occurrences needle t
  end.

(** The number of positions of [text] at which the next characters read
    [needle] when case is ignored. *)
Fixpoint count_ci (needle text : string) : nat :=
  (if String.eqb (lower (substring 0 (String.length needle) text)) needle
   then 1 else 0) +
  match text with
  | EmptyString => 0
  | String _ t => count_ci needle t
  end.

(** A capitalized word: one uppercase letter, then one or more lowercase
    letters. *)
Definition capitalized (w : string) : Prop :=
  exists u l, w = String u l /\ is_upper u = true /\
              l <> "" /\ all_chars is_lower l = true.

(** The text begins with a capitalized word followed by one or more further
    capitalized words, each after a single space. *)
Definition starts_with_name (text : string) : Prop :=
  exists first others post,
    capitalized first /\ others <> [] /\ Forall capitalized others /\
    text = first ++ String.concat "" (map (fun w => " " ++ w) others) ++ post.

(** Sub-patterns of [name_pattern]. *)
Definition cap_word : regex := Seq (Cls is_upper) (Plus (Cls is_lower)).
Definition spaced_cap_word : regex := Seq (Cls (Ascii.eqb " ")) cap_word.

(** The part of [name_pattern] after the anchor. *)
Definition name_body : regex :=
  Seq (Cls is_upper)
    (Seq (Plus (Cls is_lower)) (Plus spaced_cap_word)).

(** A non-empty run of characters of one class. *)
Definition run_of (p : ascii -> bool) (w : string) : Prop :=
  w <> "" /\ all_chars p w = true.

(** [w] reads: the digits [n], white space, "year" or "years", white space,
    "experience", with nothing else in between. *)
Definition experience_phrase (n w : string) : Prop :=
  exists ws1 s ws2,
    w = n ++ ws1 ++ "year" ++ s ++ ws2 ++ "experience" /\
    run_of is_digit n /\ run_of is_space ws1 /\ (s = "s" \/ s = "") /\
    run_of is_space ws2.

(** Some stretch of the text reads as an experience phrase when lowered. *)
Definition has_experience_phrase (text : string) : Prop :=
  exists pre mid post n,
    text = pre ++ mid ++ post /\ experience_phrase n (lower mid).

Definition experience_tail : regex :=
  Seq (Plus (Cls is_space))
    (Seq (Lit "year")
      (Seq (Opt (Cls (Ascii.eqb "s")))
        (Seq (Plus (Cls is_space)) (Lit "experience")))).

Definition no_newline (line : string) : bool :=
  all_chars (fun c => negb (nat_of_ascii c =? 10)) line.






(** The two messages of the missing-input branches. *)
Definition upload_message : string := "Please upload a resume file.".
Definition job_description_message : string := "Please provide a job description.".

(** What the user may see of a feedback category. *)
Definition feedback_shown_single (e : ui_event) : Prop :=
  match e with
  | ShowFeedback _ items => length items = 1
  | _ => True
  end.

(** Two or more capitalized words separated by single spaces. *)
Definition full_name (w : string) : Prop :=
  exists first others,
    capitalized first /\ others <> [] /\ Forall capitalized others /\
    w = first ++ String.concat "" (map (fun w => " " ++ w) others).

(** The number of findings in a category of the report for [text]. *)
Definition findings (text key : string) : nat :=
  length (default [] (get_detailed_feedback text !! key)).



(** The core operations of a run, in the order in which they were called. *)
Definition core_calls (trace : list ui_event) : list ui_event :=
  List.filter is_core_call trace.

(** * Properties *)

(** ** Strings *)

Lemma sapp_cons a s t : String a s ++ t = String a (s ++ t).
Proof. reflexivity. Qed.

Lemma sapp_nil_l s : "" ++ s = s.
Proof. reflexivity. Qed.

Lemma sapp_nil_r s : s ++ "" = s.
Proof. induction s as [|a s IH]; [done|]. by rewrite sapp_cons, IH. Qed.

Lemma sapp_assoc s t u : (s ++ t) ++ u = s ++ t ++ u.
Proof. induction s as [|a s IH]; [done|]. by rewrite !sapp_cons, IH. Qed.

Lemma slength_app s t : String.length (s ++ t) = String.length s + String.length t.
Proof. induction s as [|a s IH]; [done|]. rewrite sapp_cons. simpl. by rewrite IH. Qed.

Lemma sapp_eq_nil s t : s ++ t = "" -> s = "" /\ t = "".
Proof. destruct s; [done|]. by rewrite sapp_cons. Qed.

Lemma prefix_spec p s :
  String.prefix p s = true <-> exists post, s = p ++ post.
Proof.
  revert s. induction p as [|a p IH]; intros s.
  - split; [|by destruct s]. intros _. by exists s.
  - destruct s as [|b s]; simpl.
    + split; [done|]. by intros [post Hp].
    + destruct (ascii_dec a b) as [->|Hab].
      * rewrite IH. split; intros [post Hp]; exists post.
        -- by rewrite sapp_cons, <- Hp.
        -- rewrite sapp_cons in Hp. by simplify_eq.
      * split; [done|]. intros [post Hp]. rewrite sapp_cons in Hp. by simplify_eq.
Qed.

Lemma contains_spec n h :
  contains n h = true <-> exists pre post, h = pre ++ n ++ post.
Proof.
  induction h as [|b h IH]; cbn [contains].
  - rewrite orb_false_r, prefix_spec. split.
    + intros [post Hp]. by exists "", post.
    + intros (pre & post & Hp). symmetry in Hp.
      apply sapp_eq_nil in Hp as [-> Hp]. exists post. by rewrite Hp.
  - rewrite orb_true_iff, prefix_spec, IH. split.
    + intros [[post Hp]|(pre & post & Hp)].
      * by exists "", post.
      * exists (String b pre), post. by rewrite sapp_cons, <- Hp.
    + intros (pre & post & Hp). destruct pre as [|a pre].
      * left. by exists post.
      * right. rewrite sapp_cons in Hp. simplify_eq. by exists pre, post.
Qed.

Lemma lower_app s t : lower (s ++ t) = lower s ++ lower t.
Proof. induction s as [|a s IH]; [done|]. rewrite !sapp_cons. simpl. by rewrite IH, sapp_cons. Qed.

Lemma lower_length s : String.length (lower s) = String.length s.
Proof. induction s as [|a s IH]; simpl; congruence. Qed.

Lemma lower_split s a b :
  lower s = a ++ b -> exists s1 s2, s = s1 ++ s2 /\ lower s1 = a /\ lower s2 = b.
Proof.
  revert s. induction a as [|x a IH]; intros s Hs.
  - by exists "", s.
  - destruct s as [|y s]; [done|]. rewrite sapp_cons in Hs. simpl in Hs.
    simplify_eq. destruct (IH s) as (s1 & s2 & -> & <- & <-); [done|].
    by exists (String y s1), s2.
Qed.

Lemma contains_lower phrase text :
  contains phrase (lower text) = true <-> icontains phrase text.
Proof.
  rewrite contains_spec. split.
  - intros (pre & post & H).
    apply lower_split in H as (s1 & s2 & -> & <- & H).
    apply lower_split in H as (s3 & s4 & -> & <- & <-).
    by exists s1, s3, s4.
  - intros (pre & mid & post & -> & <-).
    exists (lower pre), (lower post). by rewrite !lower_app.
Qed.

Lemma contains_lower_false phrase text :
  contains phrase (lower text) = false <-> ~ icontains phrase text.
Proof. rewrite <- contains_lower. by destruct (contains _ _). Qed.

Lemma substring_app_l w t : substring 0 (String.length w) (w ++ t) = w.
Proof.
  induction w as [|a w IH].
  - by destruct t.
  - rewrite sapp_cons. simpl. by rewrite IH.
Qed.

Lemma all_chars_app p s t :
  all_chars p (s ++ t) = all_chars p s && all_chars p t.
Proof.
  induction s as [|a s IH]; [done|].
  rewrite sapp_cons. simpl. by rewrite IH, andb_assoc.
Qed.

(** ** The matcher against a relational reading of patterns *)

Lemma moves_nil c c' : moves c "" c' <-> c' = c.
Proof.
  unfold moves. destruct c, c'; simpl. rewrite Nat.add_0_r.
  split; [intros (-> & -> & ->)|intros [= -> -> ->]]; done.
Qed.

Lemma moves_app c w1 w2 c' :
  moves c (w1 ++ w2) c' <-> exists m, moves c w1 m /\ moves m w2 c'.
Proof.
  unfold moves. split.
  - intros (Hr & Hp & Hc).
    exists (Cursor (cur_pos c + String.length w1) (w2 ++ cur_rest c') (cur_caps c)).
    simpl. rewrite Hr, Hp, Hc, slength_app, sapp_assoc. repeat split; lia.
  - intros (m & (Hr1 & Hp1 & Hc1) & (Hr2 & Hp2 & Hc2)).
    rewrite Hr1, Hr2, Hp2, Hp1, Hc2, Hc1, slength_app, sapp_assoc.
    repeat split; lia.
Qed.

Lemma moves_length c w c' :
  moves c w c' ->
  String.length (cur_rest c) = String.length w + String.length (cur_rest c').
Proof. intros (-> & _). apply slength_app. Qed.

Lemma star_iter_In step R :
  (forall c c', In c' (step c) <-> R c c') ->
  forall n c c',
    String.length (cur_rest c) <= n ->
    In c' (star_iter step n c) <-> iter R c c'.
Proof.
  intros Hstep. induction n as [|n IH]; intros c c' Hlen; simpl.
  - split.
    + intros [<-|[]]. constructor.
    + intros H. destruct H as [|c c1 c2 _ Hlt _]; [by left|lia].
  - rewrite in_app_iff, in_flat_map. split.
    + intros [(c1 & H1 & H2)|[<-|[]]]; [|constructor].
      destruct (Nat.ltb_spec (String.length (cur_rest c1)) (String.length (cur_rest c)));
        [|done].
      apply IH in H2; [|lia]. apply Hstep in H1. by econstructor.
    + intros H. destruct H as [|c c1 c2 H1 Hlt H2]; [right; by left|].
      left. exists c1. split; [by apply Hstep|].
      destruct (Nat.ltb_spec (String.length (cur_rest c1)) (String.length (cur_rest c)));
        [|lia].
      apply IH; [lia|done].
Qed.

Lemma matches_sem r : forall c c', In c' (matches r c) <-> sem r c c'.
Proof.
  induction r as [| |p|r1 IH1 r2 IH2|r1 IH1|r1 IH1|r1 IH1]; intros c c'; simpl.
  - split; [by intros [<-|[]]|intros ->; by left].
  - destruct (Nat.eqb_spec (cur_pos c) 0) as [H0|H0]; simpl.
    + split; [by intros [<-|[]]|intros [_ ->]; by left].
    + split; [done|by intros [? _]].
  - destruct (cur_rest c) as [|a t] eqn:Hrest.
    + split; [done|]. by intros (a & _ & ? & _).
    + destruct (p a) eqn:Hp; simpl.
      * split.
        -- intros [<-|[]]. by exists a.
        -- intros (b & Hb & [= -> ->] & Hpos & Hcaps). left.
           destruct c'; simpl in *. by subst.
      * split; [done|]. intros (b & Hb & [= -> ->] & _). congruence.
  - rewrite in_flat_map. split; intros (m & H1 & H2); exists m.
    + by rewrite <- IH1, <- IH2.
    + by rewrite IH1, IH2.
  - rewrite in_app_iff, IH1. simpl.
    split; [intros [H|[H|[]]]; [by left|by right]|intros [H|H]; [by left|right; by left]].
  - rewrite in_flat_map. split; intros (m & H1 & H2); exists m.
    + rewrite <- IH1. split; [done|].
      by apply (star_iter_In (matches r1) (sem r1) IH1 _ _ _ (le_n _)).
    + rewrite IH1. split; [done|].
      by apply (star_iter_In (matches r1) (sem r1) IH1 _ _ _ (le_n _)).
  - rewrite in_map_iff. split.
    + intros (m & <- & H1). exists m. by rewrite <- IH1.
    + intros (m & H1 & ->). exists m. by rewrite IH1.
Qed.

Lemma concat_cons_nosep w ws : String.concat "" (w :: ws) = w ++ String.concat "" ws.
Proof. destruct ws as [|v ws]; simpl; [by rewrite sapp_nil_r|done]. Qed.

Lemma lang_not_nil r : nullable r = false -> forall w, lang r w -> w <> "".
Proof.
  induction r as [| |p|r1 IH1 r2 IH2|r1 IH1|r1 IH1|r1 IH1]; simpl; try done.
  - by intros _ w (a & -> & _).
  - intros Hn w (w1 & w2 & -> & H1 & H2) Hw. apply sapp_eq_nil in Hw as [-> ->].
    apply andb_false_iff in Hn as [Hn|Hn]; [by eapply IH1|by eapply IH2].
  - intros Hn w (w1 & ws & -> & H1 & _) Hw. apply sapp_eq_nil in Hw as [-> _].
    by eapply IH1.
Qed.

Lemma iter_lang r :
  (forall c c', sem r c c' <-> exists w, lang r w /\ moves c w c') ->
  (forall w, lang r w -> w <> "") ->
  forall c c',
    iter (sem r) c c' <->
    exists ws, Forall (lang r) ws /\ moves c (String.concat "" ws) c'.
Proof.
  intros Hsem Hnn c c'. split.
  - induction 1 as [c|c c1 c2 H1 _ _ (ws & Hws & Hm)].
    + exists []. split; [constructor|by apply moves_nil].
    + apply Hsem in H1 as (w & Hw & Hm1). exists (w :: ws).
      split; [by constructor|]. rewrite concat_cons_nosep, moves_app. eauto.
  - intros (ws & Hws & Hm). revert c Hm.
    induction Hws as [|w ws Hw _ IH]; intros c Hm.
    + apply moves_nil in Hm as ->. constructor.
    + rewrite concat_cons_nosep, moves_app in Hm. destruct Hm as (m & Hm1 & Hm2).
      apply iter_more with m; [apply Hsem; eauto| |by apply IH].
      apply moves_length in Hm1. specialize (Hnn w Hw).
      destruct w; [done|]. simpl in Hm1. lia.
Qed.

Theorem sem_lang r :
  plain r = true ->
  forall c c', sem r c c' <-> exists w, lang r w /\ moves c w c'.
Proof.
  induction r as [| |p|r1 IH1 r2 IH2|r1 IH1|r1 IH1|r1 IH1]; simpl; try done.
  - intros _ c c'. rewrite <- moves_nil. split; [by exists ""|by intros (w & -> & ?)].
  - intros _ c c'. unfold moves. split.
    + intros (a & Ha & Hr & Hp & Hc). exists (String a ""). simpl.
      rewrite sapp_cons, sapp_nil_l. repeat split; eauto; lia.
    + intros (w & (a & -> & Ha) & Hr & Hp & Hc). exists a.
      simpl in Hp. rewrite sapp_cons, sapp_nil_l in Hr. repeat split; eauto; lia.
  - intros [Hp1 Hp2]%andb_true_iff c c'. split.
    + intros (m & H1 & H2). apply IH1 in H1 as (w1 & Hw1 & Hm1); [|done].
      apply IH2 in H2 as (w2 & Hw2 & Hm2); [|done].
      exists (w1 ++ w2). rewrite moves_app. split; [by exists w1, w2|by exists m].
    + intros (w & (w1 & w2 & -> & Hw1 & Hw2) & Hm).
      apply moves_app in Hm as (m & Hm1 & Hm2). exists m.
      rewrite IH1, IH2 by done. split; [by exists w1|by exists w2].
  - intros Hp c c'. rewrite IH1 by done. rewrite <- moves_nil. split.
    + intros [(w & Hw & Hm)|Hm]; [exists w|exists ""]; eauto.
    + intros (w & [Hw| ->] & Hm); eauto.
  - intros [Hp Hn%negb_true_iff]%andb_true_iff c c'.
    pose proof (iter_lang r1 (IH1 Hp) (lang_not_nil r1 Hn)) as Hiter. split.
    + intros (m & H1 & H2). apply IH1 in H1 as (w1 & Hw1 & Hm1); [|done].
      apply Hiter in H2 as (ws & Hws & Hm2).
      exists (w1 ++ String.concat "" ws). rewrite moves_app.
      split; [by exists w1, ws|by exists m].
    + intros (w & (w1 & ws & -> & Hw1 & Hws) & Hm).
      apply moves_app in Hm as (m & Hm1 & Hm2). exists m.
      rewrite IH1, Hiter by done. split; [by exists w1|by exists ws].
Qed.

(** ** [search] *)

Lemma match_at_Some r i s m :
  match_at r i s = Some m ->
  exists c', sem r (Cursor i s []) c' /\
    m = ReMatch i (cur_pos c') (substring 0 (cur_pos c' - i) s) (cur_caps c').
Proof.
  unfold match_at. destruct (matches r (Cursor i s [])) as [|c' l] eqn:Hm; [done|].
  intros [= <-]. exists c'. split; [|done].
  apply matches_sem. rewrite Hm. by left.
Qed.

Lemma match_at_None r i s :
  match_at r i s = None <-> forall c', ~ sem r (Cursor i s []) c'.
Proof.
  unfold match_at. destruct (matches r (Cursor i s [])) as [|c' l] eqn:Hm.
  - split; [|done]. intros _ c' Hc. apply matches_sem in Hc. by rewrite Hm in Hc.
  - split; [done|]. intros H. destruct (H c'). apply matches_sem. rewrite Hm. by left.
Qed.

Lemma search_from_Some r s : forall i m,
  search_from r i s = Some m ->
  exists pre suf, s = pre ++ suf /\ match_at r (i + String.length pre) suf = Some m.
Proof.
  induction s as [|a s IH]; intros i m; simpl.
  - destruct (match_at r i "") eqn:Hm; [|done]. intros [= <-].
    exists "", "". by rewrite Nat.add_0_r.
  - destruct (match_at r i (String a s)) eqn:Hm.
    + intros [= <-]. exists "", (String a s). by rewrite Nat.add_0_r.
    + intros (pre & suf & -> & H)%IH. exists (String a pre), suf.
      split; [done|]. simpl. by rewrite Nat.add_succ_r.
Qed.

Lemma search_from_None r s : forall i,
  search_from r i s = None <->
  forall pre suf, s = pre ++ suf -> match_at r (i + String.length pre) suf = None.
Proof.
  induction s as [|a s IH]; intros i; simpl.
  - destruct (match_at r i "") eqn:Hm.
    + split; [done|]. intros H. specialize (H "" "" eq_refl).
      simpl in H. rewrite Nat.add_0_r in H. congruence.
    + split; [|done]. intros _ pre suf Hs. symmetry in Hs.
      apply sapp_eq_nil in Hs as [-> ->]. by rewrite Nat.add_0_r.
  - destruct (match_at r i (String a s)) eqn:Hm.
    + split; [done|]. intros H. specialize (H "" (String a s) eq_refl).
      simpl in H. rewrite Nat.add_0_r in H. congruence.
    + rewrite IH. split.
      * intros H [|b pre] suf Hs.
        -- rewrite sapp_nil_l in Hs. subst suf. by rewrite Nat.add_0_r.
        -- rewrite sapp_cons in Hs. simplify_eq. simpl.
           rewrite Nat.add_succ_r. by apply H.
      * intros H pre suf ->. specialize (H (String a pre) suf eq_refl).
        simpl in H. by rewrite Nat.add_succ_r in H.
Qed.

(** What a match of a plain pattern looks like. *)
Lemma match_at_plain_Some r i s m :
  plain r = true ->
  match_at r i s = Some m ->
  exists w post, s = w ++ post /\ lang r w /\
    m = ReMatch i (i + String.length w) w [].
Proof.
  intros Hp (c' & Hc & ->)%match_at_Some.
  apply sem_lang in Hc as (w & Hw & Hr & Hpos & Hcaps); [|done]. simpl in *.
  exists w, (cur_rest c'). rewrite Hpos, Hcaps, Hr.
  replace (i + String.length w - i) with (String.length w) by lia.
  by rewrite substring_app_l.
Qed.

Lemma match_at_plain_None r i s :
  plain r = true ->
  match_at r i s = None <-> forall w post, s = w ++ post -> ~ lang r w.
Proof.
  intros Hp. rewrite match_at_None. split.
  - intros H w post -> Hw.
    apply (H (Cursor (i + String.length w) post [])).
    apply sem_lang; [done|]. exists w. by repeat split.
  - intros H c' (w & Hw & Hr & _)%sem_lang; [|done]. by eapply H.
Qed.



(** An anchored pattern can only match at the very start of the text. *)
Lemma search_from_Bol r s i : search_from (Seq Bol r) (S i) s = None.
Proof.
  apply search_from_None. intros pre suf _. apply match_at_None.
  by intros c' (m & [? _] & _).
Qed.

Lemma search_Bol r text : search (Seq Bol r) text = match_at (Seq Bol r) 0 text.
Proof.
  unfold search. destruct text as [|a t]; simpl.
  - by destruct (match_at _ _ _).
  - destruct (match_at _ _ _); [done|]. apply search_from_Bol.
Qed.

Lemma sem_Bol r s c' :
  sem (Seq Bol r) (Cursor 0 s []) c' <-> sem r (Cursor 0 s []) c'.
Proof.
  simpl. split; [by intros (m & [_ ->] & ?)|]. intros H. by exists (Cursor 0 s []).
Qed.

(** ** The field map of [extract_data_from_text] *)

Lemma position_loop_find lines (data : gmap string string) :
  data !! "position" = Some not_found ->
  position_loop lines data =
  match find line_qualifies lines with
  | Some line => <["position" := strip line]> data
  | None => data
  end.
Proof.
  intros Hd. induction lines as [|line lines IH]; simpl; [done|].
  destruct (line_qualifies line); [|done].
  by rewrite bool_decide_eq_true_2.
Qed.

Lemma extract_data_normal text :
  extract_data_from_text text =
  <["skills" := skills_of text]> (<["experience" := experience_of text]>
  (<["email" := email_of text]> (<["position" := position_of text]>
  (<["name" := name_of text]> ∅)))).
Proof.
  unfold extract_data_from_text, name_of, email_of, experience_of, position_of,
    skills_of.
  rewrite position_loop_find.
  2:{ destruct (search name_pattern text), (search email_pattern text),
        (search experience_pattern (lower text)); by simplify_map_eq. }
  apply map_eq. intros k.
  destruct (search name_pattern text), (search email_pattern text),
    (search experience_pattern (lower text)),
    (find line_qualifies (split_nl text)), (contains "Skills" text);
    repeat (rewrite lookup_insert; case_decide; simplify_eq; try done).
Qed.

(** ** The report of [get_detailed_feedback] *)

Lemma feedback_normal text :
  get_detailed_feedback text =
  <["skills_relevance" := finding_if (skills_rule text) skills_finding]>
  (<["experience_relevance" := finding_if (mixed_rule text) mixed_finding]>
  (<["unnecessary_information" := finding_if (gpa_rule text) gpa_finding]>
  (<["professional_tone" := finding_if (tone_rule text) tone_finding]>
  (<["grammatical_errors" := finding_if (grammar_rule text) grammar_finding]> ∅)))).
Proof.
  unfold get_detailed_feedback.
  fold (grammar_rule text) (tone_rule text) (gpa_rule text) (mixed_rule text)
    (skills_rule text).
  destruct (grammar_rule text), (tone_rule text), (gpa_rule text),
    (mixed_rule text), (skills_rule text); reflexivity.
Qed.

(** ** Text extraction *)

Lemma fold_pages_ext (pages : list string) page (idx : list nat) : forall acc,
  Forall (fun i => i < length pages) idx ->
  fold_left (fun text page_num => text ++ nth page_num (pages ++ [page])%list "") idx acc =
  fold_left (fun text page_num => text ++ nth page_num pages "") idx acc.
Proof.
  induction idx as [|i idx IH]; intros acc Hidx; simpl; [done|].
  inversion Hidx as [|? ? Hi Hrest]; subst.
  rewrite IH by done. by rewrite app_nth1.
Qed.

Lemma extract_text_snoc pages page :
  extract_text_from_pdf (pages ++ [page])%list = extract_text_from_pdf pages ++ page.
Proof.
  unfold extract_text_from_pdf.
  rewrite length_app, seq_app, fold_left_app. simpl.
  rewrite fold_pages_ext.
  - by rewrite app_nth2, Nat.sub_diag by lia.
  - apply Forall_forall. intros i Hi. apply elem_of_seq in Hi. lia.
Qed.

Lemma concat_snoc_nosep pages page :
  String.concat "" (pages ++ [page])%list = String.concat "" pages ++ page.
Proof.
  induction pages as [|p pages IH]; [done|].
  change ((p :: pages) ++ [page])%list with (p :: (pages ++ [page]))%list.
  by rewrite !concat_cons_nosep, IH, sapp_assoc.
Qed.

(** C8: over the page texts of a document, [extract_text_from_pdf] is their
    concatenation in page order, and a further page never shortens it. *)
Theorem C8_extract_text_concat (pages : list string) :
  extract_text_from_pdf pages = String.concat "" pages /\
  forall page,
    String.length (extract_text_from_pdf pages) <=
    String.length (extract_text_from_pdf (pages ++ [page])%list).
Proof.
  split.
  - induction pages as [|page pages IH] using rev_ind; [done|].
    by rewrite extract_text_snoc, concat_snoc_nosep, IH.
  - intros page. rewrite extract_text_snoc, slength_app. lia.
Qed.

(** ** The categories of the report *)

Lemma finding_if_length b finding : length (finding_if b finding) <= 1.
Proof. destruct b; simpl; lia. Qed.

(** C5: the report of [get_detailed_feedback] has exactly the five category
    keys; each category holds the one finding of its rule when the rule
    fires and is empty otherwise, so no category has more than one finding. *)
Theorem C5_feedback_shape (text : string) :
  dom (get_detailed_feedback text) = feedback_keys /\
  map_Forall (fun _ findings => length findings <= 1) (get_detailed_feedback text) /\
  get_detailed_feedback text !! "grammatical_errors" =
    Some (finding_if (grammar_rule text) grammar_finding) /\
  get_detailed_feedback text !! "professional_tone" =
    Some (finding_if (tone_rule text) tone_finding) /\
  get_detailed_feedback text !! "unnecessary_information" =
    Some (finding_if (gpa_rule text) gpa_finding) /\
  get_detailed_feedback text !! "experience_relevance" =
    Some (finding_if (mixed_rule text) mixed_finding) /\
  get_detailed_feedback text !! "skills_relevance" =
    Some (finding_if (skills_rule text) skills_finding).
Proof.
  rewrite feedback_normal. split; [|split].
  - rewrite !dom_insert_L, dom_empty_L. unfold feedback_keys. set_solver.
  - repeat (apply map_Forall_insert_2; [apply finding_if_length|]).
    apply map_Forall_empty.
  - repeat split; by simplify_map_eq.
Qed.

Lemma feedback_gpa_lookup text :
  get_detailed_feedback text !! "unnecessary_information" =
  Some (finding_if (gpa_rule text) gpa_finding).
Proof. rewrite feedback_normal. by simplify_map_eq. Qed.

Lemma feedback_grammar_lookup text :
  get_detailed_feedback text !! "grammatical_errors" =
  Some (finding_if (grammar_rule text) grammar_finding).
Proof. rewrite feedback_normal. by simplify_map_eq. Qed.

(** ** Literal patterns and [findall] *)

Lemma lang_Lit s w : lang (Lit s) w <-> w = s.
Proof.
  revert w. induction s as [|a s IH]; intros w; simpl; [done|]. split.
  - intros (w1 & w2 & -> & (b & -> & Hb) & ->%IH).
    apply Ascii.eqb_eq in Hb as ->. by rewrite sapp_cons, sapp_nil_l.
  - intros ->. exists (String a ""), s. split; [done|]. split; [|by apply IH].
    exists a. by rewrite Ascii.eqb_refl.
Qed.

Lemma plain_Lit s : plain (Lit s) = true.
Proof. induction s as [|a s IH]; simpl; [done|]. by rewrite IH. Qed.

Lemma match_at_Lit s i t :
  match_at (Lit s) i t =
  if String.prefix s t then Some (ReMatch i (i + String.length s) s []) else None.
Proof.
  destruct (String.prefix s t) eqn:Hpre.
  - apply prefix_spec in Hpre as [post ->].
    destruct (match_at (Lit s) i (s ++ post)) as [m|] eqn:Hm.
    + apply match_at_plain_Some in Hm as (w & post' & _ & ->%lang_Lit & ->);
        [done|apply plain_Lit].
    + rewrite match_at_plain_None in Hm by apply plain_Lit.
      destruct (Hm s post eq_refl). by apply lang_Lit.
  - apply match_at_plain_None; [apply plain_Lit|].
    intros w post -> ->%lang_Lit.
    assert (String.prefix s (s ++ post) = true) by (apply prefix_spec; eauto).
    congruence.
Qed.

Lemma prefix_lower needle : forall text,
  String.prefix needle (lower text) =
  String.eqb (lower (substring 0 (String.length needle) text)) needle.
Proof.
  induction needle as [|a needle IH]; intros [|b text]; simpl; try done.
  rewrite IH. destruct (ascii_dec a (lower_char b)) as [->|Hne].
  - by rewrite Ascii.eqb_refl.
  - destruct (Ascii.eqb_spec (lower_char b) a); [congruence|done].
Qed.

Lemma occurrences_lower needle text :
  occurrences needle (lower text) = count_ci needle text.
Proof.
  induction text as [|b text IH].
  - change (occurrences needle (lower ""))
      with ((if String.prefix needle (lower "") then 1 else 0) + 0).
    by rewrite prefix_lower.
  - change (occurrences needle (lower (String b text)))
      with ((if String.prefix needle (lower (String b text)) then 1 else 0) +
            occurrences needle (lower text)).
    by rewrite prefix_lower, IH.
Qed.

Lemma occurrences_contains needle hay :
  0 < occurrences needle hay -> contains needle hay = true.
Proof.
  induction hay as [|b hay IH]; cbn [occurrences contains];
    destruct (String.prefix needle _); simpl; try done; lia.
Qed.

(** [findall] of the literal [gpa] counts every occurrence: the word cannot
    overlap itself. *)
Lemma findall_gpa_length : forall n s i,
  String.length s <= n ->
  length (findall_from gpa_pattern i s 0) = occurrences "gpa" s.
Proof.
  unfold gpa_pattern.
  induction n as [|n IH]; intros s i Hlen.
  - destruct s; [|simpl in Hlen; lia]. reflexivity.
  - destruct s as [|a s]; [reflexivity|].
    cbn [findall_from occurrences]. rewrite match_at_Lit.
    destruct (String.prefix "gpa" (String a s)) eqn:Hpre.
    + apply prefix_spec in Hpre as [post Hpost].
      change ("gpa" ++ post) with (String "g" (String "p" (String "a" post))) in Hpost.
      simplify_eq. cbn [m_group m_end String.length].
      replace (i + 3 - i - 1) with 2 by lia.
      cbn [findall_from length occurrences String.prefix]. simpl in Hlen.
      rewrite IH by lia. simpl. lia.
    + cbn [length]. rewrite IH; [done|simpl in Hlen; lia].
Qed.

(** C6: the unnecessary-information category holds exactly the one GPA
    finding when [gpa] occurs, case ignored, more than once in the text, and
    is empty when it occurs at most once; the text with two occurrences
    gets the one finding. *)
Theorem C6_gpa_rule (text : string) :
  get_detailed_feedback text !! "unnecessary_information" =
    Some (if 1 <? count_ci "gpa" text then [gpa_finding] else []) /\
  count_ci "gpa" "gpa 3.8 overall gpa" = 2 /\
  get_detailed_feedback "gpa 3.8 overall gpa" !! "unnecessary_information" =
    Some [gpa_finding].
Proof.
  split; [|split; reflexivity].
  rewrite feedback_gpa_lookup. f_equal. unfold finding_if, gpa_rule, findall.
  rewrite (findall_gpa_length _ _ _ (le_n _)), occurrences_lower.
  destruct (Nat.ltb_spec 1 (count_ci "gpa" text)) as [Hgt|Hle].
  - rewrite occurrences_contains; [done|]. rewrite occurrences_lower. lia.
  - by rewrite andb_false_r.
Qed.

(** ** Words of the patterns *)

Lemma lang_Plus_Cls p w :
  lang (Plus (Cls p)) w <-> w <> "" /\ all_chars p w = true.
Proof.
  simpl. split.
  - intros (w1 & ws & -> & (a & -> & Ha) & Hws). split; [done|].
    rewrite all_chars_app. simpl. rewrite Ha. simpl.
    induction Hws as [|x xs (b & -> & Hb) _ IH]; [done|].
    rewrite concat_cons_nosep, all_chars_app. simpl. by rewrite Hb, IH.
  - intros [Hne Hall]. destruct w as [|a w]; [done|]. clear Hne.
    simpl in Hall. apply andb_true_iff in Hall as [Ha Hall].
    assert (exists ws, w = String.concat "" ws /\
              Forall (fun x => exists b, x = String b "" /\ p b = true) ws)
      as (ws & -> & Hws).
    { induction w as [|b w IH]; [by exists []|].
      simpl in Hall. apply andb_true_iff in Hall as [Hb Hall].
      destruct (IH Hall) as (ws & -> & Hws).
      exists (String b "" :: ws). rewrite concat_cons_nosep. split; [done|].
      constructor; [by exists b|done]. }
    exists (String a ""), ws. split; [done|]. split; [by exists a|done].
Qed.

Lemma match_at_Bol r s : match_at (Seq Bol r) 0 s = match_at r 0 s.
Proof. unfold match_at. simpl. by rewrite app_nil_r. Qed.

Lemma search_anchored_Some r text m :
  plain r = true ->
  search (Seq Bol r) text = Some m ->
  exists w post, text = w ++ post /\ lang r w /\ m_group m = w.
Proof.
  intros Hp. rewrite search_Bol, match_at_Bol.
  intros (w & post & -> & Hw & ->)%match_at_plain_Some; [|done].
  by exists w, post.
Qed.

Lemma search_anchored_None r text :
  plain r = true ->
  search (Seq Bol r) text = None <->
  forall w post, text = w ++ post -> ~ lang r w.
Proof.
  intros Hp. rewrite search_Bol, match_at_Bol. by apply match_at_plain_None.
Qed.

Lemma lang_cap_word w : lang cap_word w <-> capitalized w.
Proof.
  unfold cap_word, capitalized.
  change (lang (Seq (Cls is_upper) (Plus (Cls is_lower))) w)
    with (exists w1 w2, w = w1 ++ w2 /\ lang (Cls is_upper) w1 /\
                        lang (Plus (Cls is_lower)) w2).
  split.
  - intros (w1 & w2 & -> & (u & -> & Hu) & [Hne Hall]%lang_Plus_Cls).
    by exists u, w2.
  - intros (u & l & -> & Hu & Hne & Hall). exists (String u ""), l.
    split; [done|]. split; [by exists u|by apply lang_Plus_Cls].
Qed.

Lemma lang_spaced_cap_word x :
  lang spaced_cap_word x <-> exists w, x = " " ++ w /\ capitalized w.
Proof.
  unfold spaced_cap_word.
  change (lang (Seq (Cls (Ascii.eqb " ")) cap_word) x)
    with (exists w1 w2, x = w1 ++ w2 /\ lang (Cls (Ascii.eqb " ")) w1 /\
                        lang cap_word w2).
  split.
  - intros (w1 & w2 & -> & (a & -> & Ha) & Hw%lang_cap_word).
    apply Ascii.eqb_eq in Ha as <-. by exists w2.
  - intros (w & -> & Hw). exists " ", w. split; [done|].
    split; [by exists " "%char|by apply lang_cap_word].
Qed.

Lemma Forall_spaced xs :
  Forall (lang spaced_cap_word) xs <->
  exists ws, xs = map (fun w => " " ++ w) ws /\ Forall capitalized ws.
Proof.
  split.
  - induction 1 as [|x xs (w & -> & Hw)%lang_spaced_cap_word _ (ws & -> & Hws)].
    + by exists [].
    + exists (w :: ws). split; [done|by constructor].
  - intros (ws & -> & Hws). induction Hws as [|w ws Hw _ IH]; simpl; [done|].
    constructor; [|done]. apply lang_spaced_cap_word. by exists w.
Qed.

Lemma lang_name_body w :
  lang name_body w <->
  exists first others,
    capitalized first /\ others <> [] /\ Forall capitalized others /\
    w = first ++ String.concat "" (map (fun w => " " ++ w) others).
Proof.
  unfold name_body.
  change (lang (Seq (Cls is_upper) (Seq (Plus (Cls is_lower)) (Plus spaced_cap_word))) w)
    with (exists w1 w2, w = w1 ++ w2 /\ lang (Cls is_upper) w1 /\
            exists w3 w4, w2 = w3 ++ w4 /\ lang (Plus (Cls is_lower)) w3 /\
              exists x xs, w4 = x ++ String.concat "" xs /\
                lang spaced_cap_word x /\ Forall (lang spaced_cap_word) xs).
  split.
  - intros (w1 & w2 & -> & H1 & w3 & w4 & -> & H3 & x & xs & -> & Hx & Hxs).
    assert (Forall (lang spaced_cap_word) (x :: xs)) as Hall by by constructor.
    apply Forall_spaced in Hall as (ws & Heq & Hws).
    exists (w1 ++ w3), ws. split.
    { apply lang_cap_word. by exists w1, w3. }
    split; [by destruct ws|]. split; [done|].
    by rewrite <- Heq, concat_cons_nosep, sapp_assoc.
  - intros (first & others & Hf & Hne & Ho & ->).
    apply lang_cap_word in Hf as (w1 & w3 & -> & H1 & H3).
    destruct others as [|o others]; [done|].
    assert (Forall (lang spaced_cap_word) (map (fun w => " " ++ w) (o :: others)))
      as Hall by (apply Forall_spaced; eauto).
    simpl map in *. inversion Hall as [|? ? Hx Hxs]; subst.
    exists w1, (w3 ++ String.concat "" ((" " ++ o) :: map (fun w => " " ++ w) others)).
    split; [by rewrite sapp_assoc|]. split; [done|].
    exists w3, (String.concat "" ((" " ++ o) :: map (fun w => " " ++ w) others)).
    split; [done|]. split; [done|].
    eexists _, _. split; [apply concat_cons_nosep|]. done.
Qed.

Lemma name_pattern_body : name_pattern = Seq Bol name_body.
Proof. reflexivity. Qed.

Lemma plain_name_body : plain name_body = true.
Proof. reflexivity. Qed.

Lemma name_body_not_sentinel : ~ lang name_body not_found.
Proof.
  intros (first & others & (u & l & -> & _ & Hne & Hl) & Ho & Hall & Heq)%lang_name_body.
  destruct others as [|o others]; [done|].
  inversion Hall as [|? ? (u2 & l2 & -> & Hu2 & _) _]; subst.
  simpl map in Heq. rewrite concat_cons_nosep in Heq.
  unfold not_found in Heq.
  destruct l as [|a [|b [|c l]]]; [done|..];
    repeat (rewrite ?sapp_cons, ?sapp_nil_l in Heq); simplify_eq; done.
Qed.

Lemma name_lookup text : extract_data_from_text text !! "name" = Some (name_of text).
Proof. rewrite extract_data_normal. by simplify_map_eq. Qed.

Lemma name_found_iff text : name_of text <> not_found <-> starts_with_name text.
Proof.
  unfold name_of, starts_with_name. rewrite name_pattern_body.
  destruct (search (Seq Bol name_body) text) as [m|] eqn:Hs.
  - apply search_anchored_Some in Hs as (w & post & -> & Hw & ->); [|done].
    split.
    + intros _. apply lang_name_body in Hw as (first & others & ? & ? & ? & ->).
      exists first, others, post. by rewrite !sapp_assoc.
    + intros _ ->. by apply name_body_not_sentinel.
  - rewrite search_anchored_None in Hs by done. split; [done|].
    intros (first & others & post & Hf & Hne & Ho & ->).
    rewrite <- sapp_assoc in Hs. exfalso. eapply Hs; [done|].
    apply lang_name_body. by exists first, others.
Qed.

(** C10: the name field differs from "Not found" exactly when the text
    begins, at its first character, with a capitalized word followed by one
    or more further capitalized words separated by single spaces; the same
    words after a newline, a space or a lowercase prefix are not found. *)
Theorem C10_name_anchored_at_start (text : string) :
  (exists name, extract_data_from_text text !! "name" = Some name /\
     (name <> not_found <-> starts_with_name text)) /\
  extract_data_from_text "John Smith" !! "name" = Some "John Smith" /\
  extract_data_from_text (nl ++ "John Smith") !! "name" = Some not_found /\
  extract_data_from_text " John Smith" !! "name" = Some not_found /\
  extract_data_from_text "mr John Smith" !! "name" = Some not_found.
Proof.
  split.
  - exists (name_of text). split; [apply name_lookup|apply name_found_iff].
  - rewrite !name_lookup. repeat split; reflexivity.
Qed.

(** ** A pattern that opens with a capturing group *)

Lemma sem_Grp_Seq r1 r2 i s c' :
  plain r1 = true -> plain r2 = true ->
  sem (Seq (Grp r1) r2) (Cursor i s []) c' <->
  exists w1 w2 post,
    lang r1 w1 /\ lang r2 w2 /\ s = w1 ++ w2 ++ post /\
    c' = Cursor (i + String.length w1 + String.length w2) post [w1].
Proof.
  intros Hp1 Hp2. simpl. split.
  - intros (m & (m0 & H1 & ->) & H2).
    apply sem_lang in H1 as (w1 & Hw1 & Hr1 & Hpos1 & Hc1); [|done].
    apply sem_lang in H2 as (w2 & Hw2 & Hr2 & Hpos2 & Hc2); [|done].
    simpl in *. exists w1, w2, (cur_rest c').
    rewrite Hr1, Hr2 in *. repeat split; try done.
    destruct c' as [p r c]. simpl in *. subst. rewrite Hpos1, Hc1.
    replace (i + String.length w1 - i) with (String.length w1) by lia.
    by rewrite substring_app_l.
  - intros (w1 & w2 & post & Hw1 & Hw2 & -> & ->).
    exists (Cursor (i + String.length w1) (w2 ++ post) [w1]). split.
    + exists (Cursor (i + String.length w1) (w2 ++ post) []). split.
      * apply sem_lang; [done|]. exists w1. by repeat split.
      * simpl. replace (i + String.length w1 - i) with (String.length w1) by lia.
        by rewrite substring_app_l.
    + apply sem_lang; [done|]. exists w2. by repeat split.
Qed.

Lemma search_grp_Some r1 r2 text m :
  plain r1 = true -> plain r2 = true ->
  search (Seq (Grp r1) r2) text = Some m ->
  exists pre w1 w2 post,
    text = pre ++ w1 ++ w2 ++ post /\ lang r1 w1 /\ lang r2 w2 /\ m_groups m = [w1].
Proof.
  intros Hp1 Hp2 (pre & suf & -> & (c' & Hc & ->)%match_at_Some)%search_from_Some.
  apply sem_Grp_Seq in Hc as (w1 & w2 & post & Hw1 & Hw2 & -> & ->); [|done..].
  by exists pre, w1, w2, post.
Qed.

Lemma search_grp_None r1 r2 text :
  plain r1 = true -> plain r2 = true ->
  search (Seq (Grp r1) r2) text = None <->
  forall pre w1 w2 post,
    text = pre ++ w1 ++ w2 ++ post -> lang r1 w1 -> ~ lang r2 w2.
Proof.
  intros Hp1 Hp2. unfold search. rewrite search_from_None. split.
  - intros H pre w1 w2 post -> Hw1 Hw2.
    specialize (H pre _ eq_refl). rewrite match_at_None in H.
    eapply H. apply sem_Grp_Seq; [done..|]. by exists w1, w2, post.
  - intros H pre suf ->. apply match_at_None. intros c' Hc.
    apply sem_Grp_Seq in Hc as (w1 & w2 & post & Hw1 & Hw2 & -> & ->); [|done..].
    by eapply H.
Qed.

(** ** The experience phrase *)

Lemma experience_pattern_tail :
  experience_pattern = Seq (Grp (Plus (Cls is_digit))) experience_tail.
Proof. reflexivity. Qed.

Lemma lang_experience_tail w :
  lang experience_tail w <->
  exists ws1 s ws2,
    w = ws1 ++ "year" ++ s ++ ws2 ++ "experience" /\
    run_of is_space ws1 /\ (s = "s" \/ s = "") /\ run_of is_space ws2.
Proof.
  unfold experience_tail.
  change (lang (Seq (Plus (Cls is_space)) (Seq (Lit "year")
            (Seq (Opt (Cls (Ascii.eqb "s")))
               (Seq (Plus (Cls is_space)) (Lit "experience"))))) w)
    with (exists w1 w2, w = w1 ++ w2 /\ lang (Plus (Cls is_space)) w1 /\
            exists w3 w4, w2 = w3 ++ w4 /\ lang (Lit "year") w3 /\
              exists w5 w6, w4 = w5 ++ w6 /\
                (lang (Cls (Ascii.eqb "s")) w5 \/ w5 = "") /\
                exists w7 w8, w6 = w7 ++ w8 /\ lang (Plus (Cls is_space)) w7 /\
                  lang (Lit "experience") w8).
  split.
  - intros (w1 & w2 & -> & H1%lang_Plus_Cls & w3 & w4 & -> & ->%lang_Lit &
            w5 & w6 & -> & H5 & w7 & w8 & -> & H7%lang_Plus_Cls & ->%lang_Lit).
    exists w1, w5, w7. split; [done|]. split; [exact H1|]. split; [|exact H7].
    destruct H5 as [(a & -> & <-%Ascii.eqb_eq) | ->]; [by left|by right].
  - intros (ws1 & s & ws2 & -> & H1 & Hs & H2).
    exists ws1, ("year" ++ s ++ ws2 ++ "experience").
    split; [done|]. split; [by apply lang_Plus_Cls|].
    exists "year", (s ++ ws2 ++ "experience").
    split; [done|]. split; [by apply lang_Lit|].
    exists s, (ws2 ++ "experience"). split; [done|]. split.
    { destruct Hs as [-> | ->]; [left|by right]. by exists "s"%char. }
    exists ws2, "experience". split; [done|].
    split; [by apply lang_Plus_Cls|by apply lang_Lit].
Qed.

Lemma experience_lookup text :
  extract_data_from_text text !! "experience" = Some (experience_of text).
Proof. rewrite extract_data_normal. by simplify_map_eq. Qed.

Lemma digits_years_not_sentinel n : run_of is_digit n -> n ++ " years" <> not_found.
Proof.
  intros [Hne Hn] Heq. destruct n as [|a n]; [done|].
  rewrite sapp_cons in Heq. unfold not_found in Heq. by simplify_eq.
Qed.

Lemma experience_found text :
  (experience_of text <> not_found <-> has_experience_phrase text) /\
  (experience_of text = not_found \/
   exists pre mid post n,
     text = pre ++ mid ++ post /\ experience_phrase n (lower mid) /\
     experience_of text = n ++ " years").
Proof.
  unfold experience_of, has_experience_phrase. rewrite experience_pattern_tail.
  destruct (search _ (lower text)) as [m|] eqn:Hs.
  - apply search_grp_Some in Hs as (pre & w1 & w2 & post & Hlow & Hw1 & Hw2 & ->);
      [|done..].
    apply lang_Plus_Cls in Hw1.
    apply lang_experience_tail in Hw2 as (ws1 & s & ws2 & -> & H1 & Hs & H2).
    rewrite <- (sapp_assoc w1) in Hlow.
    apply lower_split in Hlow as (t1 & t23 & -> & <- & Hlow).
    apply lower_split in Hlow as (t2 & t3 & -> & Hmid & <-).
    assert (experience_phrase w1 (lower t2)) as Hphrase.
    { rewrite Hmid. by exists ws1, s, ws2. }
    simpl nth. split.
    + split; [intros _; by exists t1, t2, t3, w1|].
      intros _. by apply digits_years_not_sentinel.
    + right. by exists t1, t2, t3, w1.
  - split; [|by left]. split; [done|].
    intros (pre & mid & post & n & -> & ws1 & s & ws2 & Hmid & Hn & H1 & Hs' & H2).
    rewrite search_grp_None in Hs by done. exfalso.
    apply (Hs (lower pre) n (ws1 ++ "year" ++ s ++ ws2 ++ "experience") (lower post)).
    + by rewrite !lower_app, Hmid, !sapp_assoc.
    + by apply lang_Plus_Cls.
    + apply lang_experience_tail. by exists ws1, s, ws2.
Qed.





(** ** The remaining fields *)

Lemma email_lookup text : extract_data_from_text text !! "email" = Some (email_of text).
Proof. rewrite extract_data_normal. by simplify_map_eq. Qed.

Lemma position_lookup text :
  extract_data_from_text text !! "position" = Some (position_of text).
Proof. rewrite extract_data_normal. by simplify_map_eq. Qed.

Lemma skills_lookup text : extract_data_from_text text !! "skills" = Some (skills_of text).
Proof. rewrite extract_data_normal. by simplify_map_eq. Qed.

(** C3 (as amended): on the sample resume the fields are name "John Smith",
    email "john.smith@example.com", experience "5 years" and skills
    "Explicit Skills section found." with its closing full stop. *)
Theorem C3_sample_resume_fields :
  extract_data_from_text sample !! "name" = Some "John Smith" /\
  extract_data_from_text sample !! "email" = Some "john.smith@example.com" /\
  extract_data_from_text sample !! "experience" = Some "5 years" /\
  extract_data_from_text sample !! "skills" = Some "Explicit Skills section found.".
Proof.
  rewrite name_lookup, email_lookup, experience_lookup, skills_lookup.
  repeat split; reflexivity.
Qed.

(** The skills message of the sample is not the string without full stop. *)
Lemma C3_skills_message_differs :
  extract_data_from_text sample !! "skills" <> Some "Explicit Skills section found".
Proof. rewrite skills_lookup. by intros [=]. Qed.

(** ** Lines and the position field *)

Lemma rev_app_app a : forall b, String.rev_app a b = String.rev_app a "" ++ b.
Proof.
  induction a as [|c a IH]; intros b; simpl; [done|].
  rewrite (IH (String c b)), (IH (String c "")). by rewrite sapp_assoc.
Qed.

Lemma rev_cons c cur t : String.rev (String c cur) ++ t = String.rev cur ++ String c t.
Proof.
  unfold String.rev. simpl. rewrite (rev_app_app cur (String c "")).
  by rewrite sapp_assoc.
Qed.












(** ** The email field and the shape of the field map *)









(** ** The branch behind the button *)

(** C9: pressing the button without a document, or with a document and an
    empty job description, shows one error each, the two messages differ,
    and no core operation is called; a core operation is called only when
    the button was pressed with a document and a non-empty job description. *)
Theorem C9_missing_input_no_core_call
    (classifier : string -> list string -> classification)
    (analyze_button : bool) (uploaded_file : option (list string))
    (pages : list string) (job_description : string) :
  on_rerun classifier true None job_description = [Error upload_message] /\
  on_rerun classifier true (Some pages) "" = [Error job_description_message] /\
  upload_message <> job_description_message /\
  existsb is_core_call (on_rerun classifier true None job_description) = false /\
  existsb is_core_call (on_rerun classifier true (Some pages) "") = false /\
  (existsb is_core_call
     (on_rerun classifier analyze_button uploaded_file job_description) = true <->
   analyze_button = true /\ uploaded_file <> None /\ job_description <> "").
Proof.
  repeat split; try done.
  - by destruct analyze_button.
  - by destruct analyze_button, uploaded_file.
  - destruct analyze_button, uploaded_file, job_description; done.
  - intros (-> & Hfile & Hjd).
    destruct uploaded_file as [p|], job_description; try done.
Qed.

(** * Further properties of the analysis core *)

(** ** What the shell shows *)

Lemma feedback_tone_lookup text :
  get_detailed_feedback text !! "professional_tone" =
  Some (finding_if (tone_rule text) tone_finding).
Proof. rewrite feedback_normal. by simplify_map_eq. Qed.

Lemma feedback_mixed_lookup text :
  get_detailed_feedback text !! "experience_relevance" =
  Some (finding_if (mixed_rule text) mixed_finding).
Proof. rewrite feedback_normal. by simplify_map_eq. Qed.

Lemma feedback_skills_lookup text :
  get_detailed_feedback text !! "skills_relevance" =
  Some (finding_if (skills_rule text) skills_finding).
Proof. rewrite feedback_normal. by simplify_map_eq. Qed.

Lemma display_feedback_single title b finding :
  Forall feedback_shown_single
    (display_feedback_list title (default [] (Some (finding_if b finding)))).
Proof. destruct b; repeat constructor. Qed.

(** A feedback category is shown only with a finding in it, and then with
    exactly one: empty categories are left out. *)
Theorem shown_feedback_single
    (classifier : string -> list string -> classification)
    (analyze_button : bool) (uploaded_file : option (list string))
    (job_description : string) :
  Forall feedback_shown_single
    (on_rerun classifier analyze_button uploaded_file job_description).
Proof.
  unfold on_rerun.
  destruct analyze_button; [|constructor].
  destruct uploaded_file as [pages|], job_description as [|a jd]; simpl;
    try (repeat constructor; fail).
  unfold analysis.
  destruct (get_resume_score _ _ _) as [[score result]|];
    [|repeat constructor].
  rewrite feedback_grammar_lookup, feedback_tone_lookup, feedback_gpa_lookup,
    feedback_mixed_lookup, feedback_skills_lookup.
  repeat first [apply Forall_nil_2 | apply Forall_cons_2 | apply Forall_app_2
               | apply display_feedback_single]; exact I.
Qed.

(** ** Documents as lists of pages *)

Lemma extract_text_is_concat pages :
  extract_text_from_pdf pages = String.concat "" pages.
Proof.
  induction pages as [|page pages IH] using rev_ind; [done|].
  by rewrite extract_text_snoc, concat_snoc_nosep, IH.
Qed.

Lemma concat_app_nosep (xs ys : list string) :
  String.concat "" (xs ++ ys)%list = String.concat "" xs ++ String.concat "" ys.
Proof.
  induction xs as [|x xs IH]; [done|].
  change ((x :: xs) ++ ys)%list with (x :: (xs ++ ys))%list.
  by rewrite !concat_cons_nosep, IH, sapp_assoc.
Qed.

(** The text of two documents put one after the other is the text of the
    first followed by the text of the second, and the length of a document's
    text is the sum of the lengths of its page texts. *)
Theorem extract_text_of_joined_documents (pages1 pages2 : list string) :
  extract_text_from_pdf (pages1 ++ pages2)%list =
    extract_text_from_pdf pages1 ++ extract_text_from_pdf pages2 /\
  String.length (extract_text_from_pdf pages1) =
    list_sum (map String.length pages1).
Proof.
  rewrite !extract_text_is_concat. split; [apply concat_app_nosep|].
  induction pages1 as [|p pages IH]; [done|].
  rewrite concat_cons_nosep, slength_app, IH. done.
Qed.

(** ** The name that is found *)

(** A name that is found is a prefix of the text made of two or more
    capitalized words separated by single spaces. *)
Theorem name_found_is_full_name (text : string) :
  exists name,
    extract_data_from_text text !! "name" = Some name /\
    (name = not_found \/ (full_name name /\ exists post, text = name ++ post)).
Proof.
  exists (name_of text). split; [apply name_lookup|].
  unfold name_of. rewrite name_pattern_body.
  destruct (search (Seq Bol name_body) text) as [m|] eqn:Hs; [|by left].
  apply search_anchored_Some in Hs as (w & post & -> & Hw & ->); [|done].
  right. split; [by apply lang_name_body|by exists post].
Qed.

(** ** Stripping *)












(** ** The skills field and the skills rule *)

Lemma contains_within needle a s b :
  contains needle s = true -> contains needle (a ++ s ++ b) = true.
Proof.
  rewrite !contains_spec. intros (pre & post & ->).
  exists (a ++ pre), (post ++ b). by rewrite !sapp_assoc.
Qed.

Lemma contains_lower_mono needle text :
  contains needle text = true -> contains (lower needle) (lower text) = true.
Proof.
  rewrite !contains_spec. intros (pre & post & ->).
  exists (lower pre), (lower post). by rewrite !lower_app.
Qed.

(** The skills field and the skills rule never contradict each other: the
    field reports an explicit section only for a report without the skills
    finding, and the skills finding comes only with the field saying that no
    section is present. *)
Theorem skills_field_agrees_with_rule (text : string) :
  (extract_data_from_text text !! "skills" = Some "Explicit Skills section found." /\
   get_detailed_feedback text !! "skills_relevance" = Some []) \/
  (extract_data_from_text text !! "skills" =
     Some "No explicit skills section is present; consider adding one." /\
   (get_detailed_feedback text !! "skills_relevance" = Some [skills_finding] \/
    get_detailed_feedback text !! "skills_relevance" = Some [])).
Proof.
  rewrite skills_lookup, feedback_skills_lookup. unfold skills_of, skills_rule.
  destruct (contains "Skills" text) eqn:Hs.
  - apply contains_lower_mono in Hs. change (lower "Skills") with "skills" in Hs.
    rewrite Hs. by left.
  - right. split; [done|].
    destruct (contains "skills" (lower text)); [by right|by left].
Qed.

(** ** Case and the report *)

Lemma lower_char_idem c : lower_char (lower_char c) = lower_char c.
Proof. by destruct c as [[] [] [] [] [] [] [] []]. Qed.

Lemma lower_idem s : lower (lower s) = lower s.
Proof. induction s as [|c s IH]; simpl; [done|]. by rewrite lower_char_idem, IH. Qed.

Lemma lower_char_not_upper c : is_upper (lower_char c) = false.
Proof. by destruct c as [[] [] [] [] [] [] [] []]. Qed.

Lemma lower_no_upper s : all_chars (fun c => negb (is_upper c)) (lower s) = true.
Proof.
  induction s as [|c s IH]; simpl; [done|]. by rewrite lower_char_not_upper, IH.
Qed.

Lemma contains_all_chars p needle hay :
  contains needle hay = true -> all_chars p hay = true -> all_chars p needle = true.
Proof.
  intros (pre & post & ->)%contains_spec Hall.
  rewrite !all_chars_app in Hall.
  by apply andb_true_iff in Hall as [_ [Hall _]%andb_true_iff].
Qed.

Lemma tone_rule_lower text : tone_rule (lower text) = false.
Proof.
  unfold tone_rule. destruct (contains _ (lower text)) eqn:Hc; [|done].
  pose proof (contains_all_chars _ _ _ Hc (lower_no_upper text)) as Hup.
  done.
Qed.

(** Lowering the case of a resume changes nothing in its report except the
    tone category, which becomes empty: the tone rule is the only one that
    looks at case. *)
Theorem feedback_of_lowered_text (text : string) :
  get_detailed_feedback (lower text) =
  <["professional_tone" := []]> (get_detailed_feedback text).
Proof.
  rewrite !feedback_normal.
  unfold grammar_rule, gpa_rule, mixed_rule, skills_rule.
  rewrite lower_idem, tone_rule_lower. simpl finding_if at 4.
  apply map_eq. intros k.
  repeat (rewrite lookup_insert; case_decide; simplify_eq; try done).
Qed.

(** ** Findings of a resume inside a longer one *)

Lemma occurrences_app_l needle a s :
  occurrences needle s <= occurrences needle (a ++ s).
Proof.
  induction a as [|c a IH]; [done|].
  rewrite sapp_cons. cbn [occurrences]. lia.
Qed.

Lemma occurrences_app_r needle s b :
  occurrences needle s <= occurrences needle (s ++ b).
Proof.
  induction s as [|c s IH].
  - rewrite sapp_nil_l. cbn [occurrences].
    destruct (String.prefix needle "") eqn:Hp; [|lia].
    apply prefix_spec in Hp as [post Hp]. symmetry in Hp.
    apply sapp_eq_nil in Hp as [-> _]. destruct b; simpl; lia.
  - rewrite sapp_cons. cbn [occurrences].
    destruct (String.prefix needle (String c s)) eqn:Hp; [|lia].
    apply prefix_spec in Hp as [post Hp].
    assert (String.prefix needle (String c (s ++ b)) = true) as ->; [|lia].
    apply prefix_spec. exists (post ++ b).
    by rewrite <- sapp_assoc, <- Hp, sapp_cons.
Qed.

Lemma gpa_rule_count text : gpa_rule text = (1 <? count_ci "gpa" text).
Proof.
  unfold gpa_rule, findall.
  rewrite (findall_gpa_length _ _ _ (le_n _)), occurrences_lower.
  destruct (Nat.ltb_spec 1 (count_ci "gpa" text)) as [Hgt|Hle].
  - rewrite occurrences_contains; [done|]. rewrite occurrences_lower. lia.
  - by rewrite andb_false_r.
Qed.

Lemma count_ci_within needle a s b :
  count_ci needle s <= count_ci needle (a ++ s ++ b).
Proof.
  rewrite <- !occurrences_lower, !lower_app.
  etrans; [apply (occurrences_app_r _ _ (lower b))|apply occurrences_app_l].
Qed.

Lemma findings_if text key b finding :
  get_detailed_feedback text !! key = Some (finding_if b finding) ->
  findings text key = if b then 1 else 0.
Proof. unfold findings. intros ->. by destruct b. Qed.

Lemma bool_count_le (b1 b2 : bool) :
  (b1 = true -> b2 = true) -> (if b1 then 1 else 0) <= (if b2 then 1 else 0).
Proof. destruct b1, b2; intros H; lia. Qed.

(** Putting text before and after a resume never removes its tone, GPA or
    mixed-experience finding, and never brings in the skills finding. *)
Theorem findings_of_embedded_text (before text after : string) :
  findings text "professional_tone" <=
    findings (before ++ text ++ after) "professional_tone" /\
  findings text "unnecessary_information" <=
    findings (before ++ text ++ after) "unnecessary_information" /\
  findings text "experience_relevance" <=
    findings (before ++ text ++ after) "experience_relevance" /\
  findings (before ++ text ++ after) "skills_relevance" <=
    findings text "skills_relevance".
Proof.
  rewrite !(findings_if _ _ _ _ (feedback_tone_lookup _)),
    !(findings_if _ _ _ _ (feedback_gpa_lookup _)),
    !(findings_if _ _ _ _ (feedback_mixed_lookup _)),
    !(findings_if _ _ _ _ (feedback_skills_lookup _)).
  repeat split; apply bool_count_le.
  - apply contains_within.
  - rewrite !gpa_rule_count, !Nat.ltb_lt.
    pose proof (count_ci_within "gpa" before text after). lia.
  - unfold mixed_rule. rewrite !orb_true_iff, !andb_true_iff, !lower_app.
    intros [[H1 H2]|[H1 H2]]; [left|right]; split; by apply contains_within.
  - unfold skills_rule. rewrite !negb_true_iff, !lower_app.
    intros Hc. destruct (contains "skills" (lower text)) eqn:Hs; [|done].
    by rewrite contains_within in Hc.
Qed.

(** ** The grammar rule and the experience field on the same phrase *)

Lemma lower_char_digit c : is_digit c = true -> lower_char c = c.
Proof. by destruct c as [[] [] [] [] [] [] [] []]. Qed.

Lemma lower_digits n : all_chars is_digit n = true -> lower n = n.
Proof.
  induction n as [|c n IH]; simpl; [done|].
  intros [Hc Hn]%andb_true_iff. by rewrite lower_char_digit, IH.
Qed.

(** A resume that states its experience as a number followed by " years
    experience" has its experience field extracted, and by that same phrase
    gets the grammar finding, unless "years of experience" occurs as well. *)
Theorem experience_phrase_is_flagged (before n after : string) :
  run_of is_digit n ->
  let text := before ++ (n ++ " years experience") ++ after in
  (exists experience,
     extract_data_from_text text !! "experience" = Some experience /\
     experience <> not_found) /\
  (get_detailed_feedback text !! "grammatical_errors" = Some [grammar_finding] \/
   icontains "years of experience" text).
Proof.
  intros [Hne Hn] text. split.
  - exists (experience_of text). split; [apply experience_lookup|].
    apply experience_found. exists before, (n ++ " years experience"), after, n.
    split; [done|]. rewrite lower_app, lower_digits by done.
    exists " ", "s", " ". repeat split; auto.
  - rewrite feedback_grammar_lookup.
    destruct (grammar_rule text) eqn:Hr; [by left|right].
    unfold grammar_rule in Hr. apply andb_false_iff in Hr as [Hr|Hr].
    + apply contains_lower_false in Hr. destruct Hr.
      exists (before ++ n ++ " "), "years experience", after.
      unfold text. by rewrite !sapp_assoc.
    + apply negb_false_iff in Hr. by apply contains_lower.
Qed.

Lemma experience_phrase_is_flagged_witness :
  (exists experience,
     extract_data_from_text ("Worked " ++ ("12" ++ " years experience") ++ " in sales")
       !! "experience" = Some experience /\
     experience <> not_found) /\
  (get_detailed_feedback ("Worked " ++ ("12" ++ " years experience") ++ " in sales")
     !! "grammatical_errors" = Some [grammar_finding] \/
   icontains "years of experience"
     ("Worked " ++ ("12" ++ " years experience") ++ " in sales")).
Proof.
  apply (experience_phrase_is_flagged "Worked " "12" " in sales").
  split; [discriminate|reflexivity].
Defined.

(** ** A blank first line *)

Lemma split_go_first_line line : forall cur rest,
  no_newline line = true ->
  split_go cur (line ++ nl ++ rest) = (String.rev cur ++ line) :: split_go "" rest.
Proof.
  unfold no_newline.
  induction line as [|c line IH]; intros cur rest Hline.
  - by rewrite sapp_nil_l, sapp_nil_r.
  - simpl in Hline. apply andb_true_iff in Hline as [Hc%negb_true_iff Hline].
    rewrite sapp_cons. cbn [split_go]. rewrite Hc, IH by done. by rewrite rev_cons.
Qed.

Lemma split_go_single_line line : forall cur,
  no_newline line = true -> split_go cur line = [String.rev cur ++ line].
Proof.
  unfold no_newline.
  induction line as [|c line IH]; intros cur Hline.
  - by rewrite sapp_nil_r.
  - simpl in Hline. apply andb_true_iff in Hline as [Hc%negb_true_iff Hline].
    cbn [split_go]. rewrite Hc, IH by done. by rewrite rev_cons.
Qed.

Lemma is_space_lower_char c : is_space (lower_char c) = is_space c.
Proof. by destruct c as [[] [] [] [] [] [] [] []]. Qed.

Lemma all_space_lower s : all_chars is_space (lower s) = all_chars is_space s.
Proof.
  induction s as [|c s IH]; simpl; [done|]. by rewrite is_space_lower_char, IH.
Qed.

Lemma blank_line_qualifies ws :
  all_chars is_space ws = true -> String.length ws < 50 ->
  line_qualifies ws = true.
Proof.
  intros Hws Hlen. unfold line_qualifies.
  rewrite <- all_space_lower in Hws.
  assert (forall word, all_chars is_space word = false ->
                       contains word (lower ws) = false) as Hno.
  { intros word Hword. destruct (contains word (lower ws)) eqn:Hc; [|done].
    apply (contains_all_chars is_space) in Hc; [congruence|done]. }
  rewrite !Hno by reflexivity. simpl. by apply Nat.ltb_lt.
Qed.

Lemma strip_blank ws : all_chars is_space ws = true -> strip ws = "".
Proof.
  unfold strip. induction ws as [|c ws IH]; simpl; [done|].
  intros [-> Hws]%andb_true_iff. by apply IH.
Qed.

(** When the first line of the text is blank (white space only, under 50
    characters; the empty line included), the position field is the empty
    string, not "Not found", whatever follows. *)
Theorem blank_first_line_gives_empty_position (ws rest : string) :
  all_chars is_space ws = true ->
  no_newline ws = true ->
  String.length ws < 50 ->
  extract_data_from_text (ws ++ nl ++ rest) !! "position" = Some "" /\
  extract_data_from_text ws !! "position" = Some "".
Proof.
  intros Hws Hnl Hlen. rewrite !position_lookup. unfold position_of, split_nl.
  rewrite (split_go_first_line ws), (split_go_single_line ws) by done.
  change (String.rev "" ++ ws) with ws. simpl find.
  rewrite blank_line_qualifies by done. by rewrite strip_blank.
Qed.

Lemma blank_first_line_gives_empty_position_witness :
  extract_data_from_text ("  " ++ nl ++ "John Smith") !! "position" = Some "" /\
  extract_data_from_text "  " !! "position" = Some "".
Proof.
  apply (blank_first_line_gives_empty_position "  " "John Smith").
  - reflexivity.
  - reflexivity.
  - simpl. lia.
Defined.

(** ** The email that is found: leftmost and as long as possible *)












(** ** The number of years that is found *)





(** ** The order of the core operations *)

Lemma core_calls_display title items :
  List.filter is_core_call (display_feedback_list title items) = [].
Proof. by destruct items. Qed.

(** A run calls the core operations in one order only: text extraction,
    then scoring, then field extraction, then feedback, the last three on the
    extracted text.  Fields and feedback are never computed when scoring
    fails, which happens when the classifier returns no confidence; and
    nothing is called at all unless both inputs are there. *)
Theorem core_calls_in_order
    (classifier : string -> list string -> classification)
    (analyze_button : bool) (uploaded_file : option (list string))
    (job_description : string) :
  let calls :=
    core_calls (on_rerun classifier analyze_button uploaded_file job_description) in
  (calls = [] /\
   (analyze_button = false \/ uploaded_file = None \/ job_description = "")) \/
  exists pages,
    analyze_button = true /\ uploaded_file = Some pages /\ job_description <> "" /\
    let text := extract_text_from_pdf pages in
    let scores :=
      res_scores (classifier (prompt_of text job_description) candidate_labels) in
    (scores <> [] /\
     calls = [CallExtractText pages; CallScore text job_description;
              CallExtractData text; CallFeedback text]) \/
    (scores = [] /\
     calls = [CallExtractText pages; CallScore text job_description]).
Proof.
  unfold on_rerun.
  destruct analyze_button; [|left; auto].
  destruct uploaded_file as [pages|]; [|left; simpl; auto].
  destruct job_description as [|a jd]; [left; simpl; auto|].
  right. exists pages. split; [done|]. split; [done|]. split; [done|].
  simpl bool_decide. simpl andb. cbv iota. unfold analysis, get_resume_score.
  destruct (res_scores (classifier _ _)) as [|x xs] eqn:Hscores.
  - right. split; [done|]. reflexivity.
  - left. split; [done|]. unfold core_calls. cbn [length].
    rewrite !List.filter_app, !core_calls_display. reflexivity.
Qed.
